(** * Outbound caller (src/agent.py): a shallow embedding of the call
    controller, its function tools and the dial-info resolution of
    [entrypoint].

    External collaborators (LiveKit room/SIP API, the agent session,
    [json.loads], [os.getenv]) are modelled only at their boundary: a call
    to them is an event appended to a trace, and their outcomes come from a
    [world] record or from section variables. *)

From Stdlib Require Import String Ascii List ZArith Bool Lia.
Import ListNotations.
Open Scope string_scope.
Open Scope list_scope.
#[local] Set Warnings "-register-all".

(** ** Python values *)

(** The values that can appear in job metadata and in [dial_info]
    (the results of [json.loads] and of the defaults). Dicts are
    association lists in insertion order. *)
Inductive pyval : Type :=
| PNone
| PBool (b : bool)
| PInt (z : Z)
| PStr (s : string)
| PList (l : list pyval)
| PDict (d : list (string * pyval)).

(** Python truthiness, [bool(v)]. *)
Definition truthy (v : pyval) : bool :=
  match v with
  | PNone => false
  | PBool b => b
  | PInt z => negb (Z.eqb z 0)
  | PStr s => negb (String.eqb s "")
  | PList l => match l with [] => false | _ => true end
  | PDict d => match d with [] => false | _ => true end
  end.

(** Python exceptions the code can raise or catch. *)
Inductive exn : Type :=
| KeyError
| TypeError
| AttributeError
| JSONDecodeError
| TwirpError.

Inductive res (A : Type) : Type :=
| Ok (a : A)
| Err (e : exn).
Arguments Ok {A} a.
Arguments Err {A} e.

(** Dict lookup by key (first binding; dicts built by [dict_set] have
    unique keys). *)
Fixpoint dict_get (d : list (string * pyval)) (k : string) : option pyval :=
  match d with
  | [] => None
  | (k', v) :: d' => if String.eqb k' k then Some v else dict_get d' k
  end.

(** [d[k] = v]: replace the binding in place, or append a new one. *)
Fixpoint dict_set (d : list (string * pyval)) (k : string) (v : pyval)
  : list (string * pyval) :=
  match d with
  | [] => [(k, v)]
  | (k', v') :: d' =>
      if String.eqb k' k then (k', v) :: d' else (k', v') :: dict_set d' k v
  end.

(** [s.startswith(p)], returning the rest of [s]. *)
Fixpoint strip_prefix (p s : string) : option string :=
  match p, s with
  | EmptyString, _ => Some s
  | String c p', String c' s' =>
      if Ascii.eqb c c' then strip_prefix p' s' else None
  | String _ _, EmptyString => None
  end.

Definition starts_with (p s : string) : bool :=
  match strip_prefix p s with Some _ => true | None => false end.

(** [p in s] for two strings (substring test). *)
Fixpoint str_contains (p s : string) : bool :=
  starts_with p s ||
  match s with
  | EmptyString => false
  | String _ s' => str_contains p s'
  end.

(** [k in container] with a string [k]. *)
Definition py_contains (container : pyval) (k : string) : res bool :=
  match container with
  | PDict d => Ok (match dict_get d k with Some _ => true | None => false end)
  | PList l =>
      Ok (existsb (fun v => match v with PStr s => String.eqb s k | _ => false end) l)
  | PStr s => Ok (str_contains k s)
  | PNone | PBool _ | PInt _ => Err TypeError
  end.

(** [container[k]] with a string [k]. *)
Definition py_getitem (container : pyval) (k : string) : res pyval :=
  match container with
  | PDict d => match dict_get d k with Some v => Ok v | None => Err KeyError end
  | _ => Err TypeError
  end.

(** [container[k] = v] with a string [k]; only a dict supports it. *)
Definition py_setitem (container : pyval) (k : string) (v : pyval) : res pyval :=
  match container with
  | PDict d => Ok (PDict (dict_set d k v))
  | _ => Err TypeError
  end.

(** [container.get(k, default)]; only a dict has [get]. *)
Definition py_dict_get (container : pyval) (k : string) (default : pyval) : res pyval :=
  match container with
  | PDict d => match dict_get d k with Some v => Ok v | None => Ok default end
  | _ => Err AttributeError
  end.

(** ** Effects: a trace of requests to the external collaborators *)

(** Each event is a completed [await] on a collaborator, in program order. *)
Inductive event : Type :=
| EvConnect                              (* await ctx.connect() *)
| EvSessionStart                         (* asyncio.create_task(session.start(...)) *)
| EvDial (number : pyval)                (* await create_sip_participant(sip_call_to=number) *)
| EvWaitParticipant                      (* await ctx.wait_for_participant("phone_user") *)
| EvShutdown                             (* ctx.shutdown() *)
| EvReply (instructions : string)        (* await ctx.session.generate_reply(instructions=...) *)
| EvSpeechDone                           (* await current_speech.done() *)
| EvTransfer (identity : string) (to : pyval) (* await transfer_sip_participant(.., transfer_to=f"tel:{to}") *)
| EvDeleteRoom                           (* await delete_room(room=job_ctx.room.name) *)
| EvSleep (secs : nat).                  (* await asyncio.sleep(secs) *)

Definition event_eqb (e1 e2 : event) : bool :=
  match e1, e2 with
  | EvConnect, EvConnect | EvSessionStart, EvSessionStart
  | EvWaitParticipant, EvWaitParticipant | EvShutdown, EvShutdown
  | EvSpeechDone, EvSpeechDone | EvDeleteRoom, EvDeleteRoom => true
  | EvReply a, EvReply b => String.eqb a b
  | EvSleep a, EvSleep b => Nat.eqb a b
  | _, _ => false
  end.

Definition is_delete (e : event) : bool :=
  match e with EvDeleteRoom => true | _ => false end.
Definition is_dial (e : event) : bool :=
  match e with EvDial _ => true | _ => false end.
Definition is_transfer (e : event) : bool :=
  match e with EvTransfer _ _ => true | _ => false end.

(** The state/error monad: the trace threaded through, Python exceptions
    as [Err]. *)
Definition M (A : Type) : Type := list event -> res A * list event.

Definition ret {A} (a : A) : M A := fun tr => (Ok a, tr).
Definition raise {A} (e : exn) : M A := fun tr => (Err e, tr).
Definition emit (e : event) : M unit := fun tr => (Ok tt, tr ++ [e]).
Definition bind {A B} (m : M A) (f : A -> M B) : M B :=
  fun tr => match m tr with
            | (Ok a, tr') => f a tr'
            | (Err e, tr') => (Err e, tr')
            end.
(** [try: m except Exception: h]. *)
Definition try_except {A} (m : M A) (h : exn -> M A) : M A :=
  fun tr => match m tr with
            | (Ok a, tr') => (Ok a, tr')
            | (Err e, tr') => h e tr'
            end.
Definition lift {A} (r : res A) : M A :=
  match r with Ok a => ret a | Err e => raise e end.

Notation "x <- m ;; k" := (bind m (fun x => k))
  (at level 61, m at next level, right associativity).
Notation "m ;;; k" := (bind m (fun _ => k))
  (at level 61, right associativity).

(** ** The agent: class [OutboundCaller] *)

Record participant : Type := { identity : string }.

Record outbound_caller : Type := {
  participant_of : option participant;   (* self.participant *)
  dial_info : pyval                      (* self.dial_info *)
}.

(** [OutboundCaller(name=..., appointment_time=..., dial_info=...)]: the
    instructions are a prompt and are not modelled; the participant
    starts as [None]. *)
Definition new_outbound_caller (dial_info : pyval) : outbound_caller :=
  {| participant_of := None; dial_info := dial_info |}.

Definition set_participant (p : participant) (a : outbound_caller) : outbound_caller :=
  {| participant_of := Some p; dial_info := dial_info a |}.

(** Outcomes of the collaborators during one run. *)
Record world : Type := {
  current_speech : bool;   (* ctx.session.current_speech is not None *)
  transfer_fails : bool;   (* transfer_sip_participant raises *)
  delete_fails : bool;     (* delete_room raises *)
  dial_fails : bool        (* create_sip_participant raises TwirpError *)
}.

Section Tools.
Variable w : world.

(** [self.participant.identity]: [None.identity] raises AttributeError.
    It is evaluated by the f-strings of the logging calls. *)
Definition participant_identity (a : outbound_caller) : M string :=
  match participant_of a with
  | None => raise AttributeError
  | Some p => ret (identity p)
  end.

(** [OutboundCaller.hangup]. *)
Definition hangup : M unit :=
  emit EvDeleteRoom ;;;
  if delete_fails w then raise TwirpError else ret tt.

(** [OutboundCaller.transfer_call]; a Python function without [return]
    returns [None]. *)
Definition transfer_call (a : outbound_caller) : M pyval :=
  transfer_to <- lift (py_getitem (dial_info a) "transfer_to") ;;
  if negb (truthy transfer_to) then ret (PStr "cannot transfer call") else
  emit (EvReply "let the user know you'll be transferring them") ;;;
  try_except
    (id <- participant_identity a ;;
     emit (EvTransfer id transfer_to) ;;;
     if transfer_fails w then raise TwirpError else ret tt)
    (fun _ =>
       emit (EvReply "there was an error transferring the call.") ;;;
       hangup) ;;;
  ret PNone.

(** [OutboundCaller.end_call]. *)
Definition end_call (a : outbound_caller) : M pyval :=
  _ <- participant_identity a ;;
  (if current_speech w then emit EvSpeechDone else ret tt) ;;;
  hangup ;;;
  ret PNone.

(** [OutboundCaller.look_up_availability]. *)
Definition look_up_availability (a : outbound_caller) (date : string) : M pyval :=
  _ <- participant_identity a ;;
  emit (EvSleep 3) ;;;
  ret (PDict [("available_times", PList [PStr "1pm"; PStr "2pm"; PStr "3pm"])]).

(** [OutboundCaller.confirm_appointment]. *)
Definition confirm_appointment (a : outbound_caller) (date time : string) : M pyval :=
  _ <- participant_identity a ;;
  ret (PStr "reservation confirmed").

(** [OutboundCaller.detected_answering_machine]. *)
Definition detected_answering_machine (a : outbound_caller) : M pyval :=
  _ <- participant_identity a ;;
  hangup ;;;
  ret PNone.

End Tools.

(** The closed set of function tools the conversation policy may invoke. *)
Inductive tool : Type :=
| TransferCall
| EndCall
| LookUpAvailability (date : string)
| ConfirmAppointment (date time : string)
| DetectedAnsweringMachine.

Definition invoke (w : world) (a : outbound_caller) (t : tool) : M pyval :=
  match t with
  | TransferCall => transfer_call w a
  | EndCall => end_call w a
  | LookUpAvailability date => look_up_availability a date
  | ConfirmAppointment date time => confirm_appointment a date time
  | DetectedAnsweringMachine => detected_answering_machine w a
  end.

(** ** The regex fallback of [entrypoint]

    [re.search(r'<label>[SEP]+([+\d]+)', metadata).group(1)] for the
    labels [phone_number] and [transfer_to], where the class SEP holds the
    single quote, the double quote, [\s] and the colon. Characters are code points
    0..255; Python's [\s] on them is 9..13, 28..32, 133 and 160, and [\d]
    is 0..9. *)

Definition is_space (c : ascii) : bool :=
  let n := nat_of_ascii c in
  (((9 <=? n) && (n <=? 13)) || ((28 <=? n) && (n <=? 32))
   || Nat.eqb n 133 || Nat.eqb n 160)%nat.

Definition is_digit (c : ascii) : bool :=
  let n := nat_of_ascii c in ((48 <=? n) && (n <=? 57))%nat.

(** The class SEP: single quote, double quote, [\s], colon. *)
Definition is_sep (c : ascii) : bool :=
  Ascii.eqb c "'"%char || Ascii.eqb c "034"%char || is_space c || Ascii.eqb c ":"%char.

(** The class [[+\d]]. *)
Definition is_tok (c : ascii) : bool :=
  Ascii.eqb c "+"%char || is_digit c.

(** The longest prefix of [s] in [[+\d]]. *)
Fixpoint tok_run (s : string) : string :=
  match s with
  | String c s' => if is_tok c then String c (tok_run s') else EmptyString
  | EmptyString => EmptyString
  end.

(** The group [([+\d]+)] at the end of the pattern: greedy, so the longest
    run; it fails on an empty run. *)
Definition tok_plus (s : string) : option string :=
  match tok_run s with EmptyString => None | t => Some t end.

(** [[sep]*([+\d]+)] with greedy backtracking: first try to consume one
    more separator, and on failure match the group here. *)
Fixpoint seps_star_tok (s : string) : option string :=
  match s with
  | String c s' =>
      if is_sep c then
        match seps_star_tok s' with Some t => Some t | None => tok_plus s end
      else tok_plus s
  | EmptyString => tok_plus s
  end.

(** [[sep]+([+\d]+)]. *)
Definition seps_plus_tok (s : string) : option string :=
  match s with
  | String c s' => if is_sep c then seps_star_tok s' else None
  | EmptyString => None
  end.

(** A match of the whole pattern starting at the beginning of [s];
    the result is [group(1)]. *)
Definition match_at (label s : string) : option string :=
  match strip_prefix label s with
  | Some rest => seps_plus_tok rest
  | None => None
  end.

(** [re.search]: the leftmost starting position that matches. *)
Fixpoint re_search (label s : string) : option string :=
  match match_at label s with
  | Some t => Some t
  | None => match s with
            | String _ s' => re_search label s'
            | EmptyString => None
            end
  end.

(** Lines 197-204: the dict built from the two regex matches. *)
Definition regex_dial_info (metadata : string) : pyval :=
  let phone_match := re_search "phone_number" metadata in
  let transfer_match := re_search "transfer_to" metadata in
  let d := [] in
  let d := match phone_match with
           | Some g => dict_set d "phone_number" (PStr g) | None => d end in
  let d := match transfer_match with
           | Some g => dict_set d "transfer_to" (PStr g) | None => d end in
  PDict d.

(** ** Dial-info resolution and the dial guard of [entrypoint] *)

Section Entrypoint.
(** [json.loads] on a string: [Err JSONDecodeError] on malformed input. *)
Variable json_loads : string -> res pyval.
(** The process environment read by [os.getenv]. *)
Variable environ : string -> option string.

Definition getenv (k default : string) : pyval :=
  match environ k with Some v => PStr v | None => PStr default end.

(** Lines 184-214: the [try] block and its [except Exception] handler. *)
Definition parse_metadata (metadata : pyval) : pyval :=
  let attempt : res pyval :=
    if truthy metadata then
      match metadata with
      | PStr s =>
          match json_loads s with
          | Ok v => Ok v
          | Err JSONDecodeError => Ok (regex_dial_info s)
          | Err e => Err e
          end
      | _ => Ok metadata
      end
    else Ok (PDict []) in
  match attempt with
  | Ok v => v
  | Err _ => PDict []
  end.

(** [if key not in dial_info: dial_info[key] = value]. *)
Definition set_default (dial_info : pyval) (key : string) (value : pyval) : res pyval :=
  match py_contains dial_info key with
  | Err e => Err e
  | Ok true => Ok dial_info
  | Ok false => py_setitem dial_info key value
  end.

(** Lines 184-222: the resolved [dial_info], or the exception that
    escapes [entrypoint]. *)
Definition resolve_dial_info (metadata : pyval) : res pyval :=
  let dial_info := parse_metadata metadata in
  match set_default dial_info "phone_number" (getenv "DEFAULT_PHONE_NUMBER" "") with
  | Err e => Err e
  | Ok dial_info =>
  match set_default dial_info "transfer_to" (getenv "DEFAULT_TRANSFER_NUMBER" "") with
  | Err e => Err e
  | Ok dial_info => set_default dial_info "prospect_name" (PStr "there")
  end
  end.

(** The return path [entrypoint] takes (the Python function returns
    [None] on each of them). *)
Inductive outcome : Type :=
| NoNumber      (* lines 258-261: no phone number, shutdown, return *)
| DialFailed    (* lines 278-284: TwirpError from the dial, shutdown *)
| Answered.     (* lines 275-276: participant bound *)

Variable w : world.

(** [entrypoint], from [ctx.connect()] to the binding of the participant;
    it also returns the agent it built. *)
Definition entrypoint (metadata : pyval) : M (outcome * outbound_caller) :=
  emit EvConnect ;;;
  dial_info <- lift (resolve_dial_info metadata) ;;
  name <- lift (py_dict_get dial_info "prospect_name" (PStr "there")) ;;
  let agent := new_outbound_caller dial_info in
  emit EvSessionStart ;;;
  phone_number <- lift (py_getitem dial_info "phone_number") ;;
  if negb (truthy phone_number) then
    emit EvShutdown ;;; ret (NoNumber, agent)
  else
    emit (EvDial phone_number) ;;;
    if dial_fails w then
      emit EvShutdown ;;; ret (DialFailed, agent)
    else
      emit EvWaitParticipant ;;;
      ret (Answered, set_participant {| identity := "phone_user" |} agent).

End Entrypoint.

(** ** Running several tool invocations in sequence

    Each invocation is a separate call from the conversation policy: an
    exception in one does not stop the next, and each invocation meets its
    own collaborator outcomes (its own [world]). *)
Fixpoint run_tools (a : outbound_caller) (calls : list (world * tool))
  : M (list (res pyval)) :=
  match calls with
  | [] => ret []
  | (w, t) :: calls' => fun tr =>
      let '(r, tr') := invoke w a t tr in
      match run_tools a calls' tr' with
      | (Ok rs, tr'') => (Ok (r :: rs), tr'')
      | (Err e, tr'') => (Err e, tr'')
      end
  end.

Definition count_deletes (tr : list event) : nat := length (filter is_delete tr).

(** A sample session used by the concrete statements below. *)
Definition sample_caller : outbound_caller :=
  {| participant_of := Some {| identity := "phone_user" |};
     dial_info := PDict [("phone_number", PStr "+15551234567");
                         ("transfer_to", PStr "+15557654321");
                         ("prospect_name", PStr "there")] |}.

Definition calm_world : world :=
  {| current_speech := false; transfer_fails := false;
     delete_fails := false; dial_fails := false |}.

(** ** Framing: a computation only appends to the trace *)

Definition framed {A} (m : M A) : Prop :=
  forall tr, m tr = (fst (m []), tr ++ snd (m [])).

Lemma ret_framed {A} (a : A) : framed (ret a).
Proof. intros tr. cbn. now rewrite app_nil_r. Qed.

Lemma raise_framed {A} (e : exn) : framed (@raise A e).
Proof. intros tr. cbn. now rewrite app_nil_r. Qed.

Lemma emit_framed (e : event) : framed (emit e).
Proof. intros tr. reflexivity. Qed.

Lemma lift_framed {A} (r : res A) : framed (lift r).
Proof. destruct r; [apply ret_framed | apply raise_framed]. Qed.

Lemma bind_framed {A B} (m : M A) (f : A -> M B) :
  framed m -> (forall a, framed (f a)) -> framed (bind m f).
Proof.
  intros Hm Hf tr. unfold bind.
  rewrite (Hm tr), (Hm []).
  destruct (m []) as [[a|e] t0]; cbn.
  - rewrite (Hf a (tr ++ t0)), (Hf a t0). cbn. now rewrite app_assoc.
  - reflexivity.
Qed.

Lemma try_except_framed {A} (m : M A) (h : exn -> M A) :
  framed m -> (forall e, framed (h e)) -> framed (try_except m h).
Proof.
  intros Hm Hh tr. unfold try_except.
  rewrite (Hm tr), (Hm []).
  destruct (m []) as [[a|e] t0]; cbn.
  - reflexivity.
  - rewrite (Hh e (tr ++ t0)), (Hh e t0). cbn. now rewrite app_assoc.
Qed.

Create HintDb framing.
#[local] Hint Resolve ret_framed raise_framed emit_framed lift_framed
  bind_framed try_except_framed : framing.

Ltac framed_tac :=
  repeat match goal with
         | |- framed (bind _ _) => apply bind_framed; [|intro]
         | |- framed (try_except _ _) => apply try_except_framed; [|intro]
         | |- framed (if ?b then _ else _) => destruct b
         | |- framed (match ?x with _ => _ end) => destruct x
         | |- _ => solve [eauto with framing]
         end.

Lemma participant_identity_framed (a : outbound_caller) :
  framed (participant_identity a).
Proof. unfold participant_identity. framed_tac. Qed.

Lemma hangup_framed (w : world) : framed (hangup w).
Proof. unfold hangup. framed_tac. Qed.

#[local] Hint Resolve participant_identity_framed hangup_framed : framing.





Definition delete_error_world : world :=
  {| current_speech := false; transfer_fails := false;
     delete_fails := true; dial_fails := false |}.

(** C2 (counterexample). Two [end_call] invocations in sequence issue two
    delete-room requests; the second returns no already-ended result but
    the outcome of its own request: [None] when it succeeds, the provider
    error when it fails (e.g. on the already deleted room). *)
Lemma end_call_twice_deletes_twice :
  run_tools sample_caller [(calm_world, EndCall); (calm_world, EndCall)] []
    = (Ok [Ok PNone; Ok PNone], [EvDeleteRoom; EvDeleteRoom]) /\
  run_tools sample_caller [(calm_world, EndCall); (delete_error_world, EndCall)] []
    = (Ok [Ok PNone; Err TwirpError], [EvDeleteRoom; EvDeleteRoom]) /\
  count_deletes
    (snd (run_tools sample_caller [(calm_world, EndCall); (calm_world, EndCall)] []))
    = 2%nat.
Proof. cbn. repeat split. Qed.

(** C2 (amended). On a session with a bound participant, [end_call]
    invoked twice in sequence waits for the current speech (if any) and
    issues a delete-room request each time: two teardowns in total. Each
    invocation returns the outcome of its own delete-room request ([None]
    on success, the provider error on failure); neither returns an
    already-ended result. *)
Theorem end_call_twice :
  forall (w1 w2 : world) (a : outbound_caller) (p : participant),
    participant_of a = Some p ->
    let ev w := (if current_speech w then [EvSpeechDone] else []) ++ [EvDeleteRoom] in
    let r w := if delete_fails w then Err TwirpError else Ok PNone in
    run_tools a [(w1, EndCall); (w2, EndCall)] [] = (Ok [r w1; r w2], ev w1 ++ ev w2) /\
    count_deletes (ev w1 ++ ev w2) = 2%nat.
Proof.
  intros w1 w2 a p Hp ev r. subst ev r. cbn.
  unfold end_call, participant_identity, hangup, bind, emit, ret, raise.
  rewrite Hp.
  destruct (current_speech w1), (delete_fails w1), (current_speech w2), (delete_fails w2);
    cbn; split; reflexivity.
Qed.

Lemma end_call_twice_witness :
  run_tools sample_caller [(calm_world, EndCall); (delete_error_world, EndCall)] []
    = (Ok [Ok PNone; Err TwirpError], [EvDeleteRoom; EvDeleteRoom]).
Proof.
  exact (proj1 (end_call_twice calm_world delete_error_world sample_caller
                  {| identity := "phone_user" |} eq_refl)).
Defined.

(** ** Dict lemmas and the keys of the resolved [dial_info] *)

Lemma dict_get_set_same (d : list (string * pyval)) (k : string) (v : pyval) :
  dict_get (dict_set d k v) k = Some v.
Proof.
  induction d as [|[k' v'] d IH]; cbn.
  - now rewrite String.eqb_refl.
  - destruct (String.eqb k' k) eqn:E; cbn; rewrite ?E; auto.
Qed.

Lemma dict_get_set_other (d : list (string * pyval)) (k k' : string) (v : pyval) :
  k' <> k -> dict_get (dict_set d k v) k' = dict_get d k'.
Proof.
  intros Hne. induction d as [|[k0 v0] d IH]; cbn.
  - destruct (String.eqb k k') eqn:E; [apply String.eqb_eq in E; congruence|reflexivity].
  - destruct (String.eqb k0 k) eqn:E; cbn.
    + apply String.eqb_eq in E. subst k0.
      destruct (String.eqb k k') eqn:E'; [apply String.eqb_eq in E'; congruence|reflexivity].
    + now rewrite IH.
Qed.

(** [set_default] yields a dict only from a dict; the key it defaults is
    then present, and every key present before stays present. *)
Lemma set_default_dict (x : pyval) (k : string) (v : pyval) (d : list (string * pyval)) :
  set_default x k v = Ok (PDict d) ->
  exists d0, x = PDict d0 /\ dict_get d k <> None /\
    (forall k', dict_get d0 k' <> None -> dict_get d k' <> None).
Proof.
  unfold set_default, py_contains, py_setitem. intros Hset.
  destruct x as [| | |s|l|d0]; try discriminate.
  - destruct (str_contains k s); discriminate.
  - destruct (existsb _ l); discriminate.
  - exists d0. split; [reflexivity|].
    destruct (dict_get d0 k) eqn:E; injection Hset as <-.
    + split; [congruence|auto].
    + split; [now rewrite dict_get_set_same|].
      intros k' Hk'. destruct (String.eqb k' k) eqn:Ek.
      * apply String.eqb_eq in Ek. subst. now rewrite dict_get_set_same.
      * apply String.eqb_neq in Ek. now rewrite dict_get_set_other.
Qed.

Lemma resolve_dict_keys (json_loads : string -> res pyval)
  (environ : string -> option string) (md : pyval) (d : list (string * pyval)) :
  resolve_dial_info json_loads environ md = Ok (PDict d) ->
  dict_get d "phone_number" <> None /\ dict_get d "transfer_to" <> None /\
  dict_get d "prospect_name" <> None.
Proof.
  unfold resolve_dial_info.
  destruct (set_default (parse_metadata json_loads md) "phone_number" _) as [d1|] eqn:E1;
    [|discriminate].
  destruct (set_default d1 "transfer_to" _) as [d2|] eqn:E2; [|discriminate].
  intros E3.
  destruct (set_default_dict _ _ _ _ E3) as (d2' & -> & K3 & P3).
  destruct (set_default_dict _ _ _ _ E2) as (d1' & -> & K2 & P2).
  destruct (set_default_dict _ _ _ _ E1) as (d0 & _ & K1 & _).
  auto.
Qed.

(** The agent [entrypoint] builds holds the resolved dict. *)
Lemma entrypoint_agent_dict (json_loads : string -> res pyval)
  (environ : string -> option string) (w : world) (md : pyval)
  (tr : list event) (o : outcome) (a : outbound_caller) :
  fst (entrypoint json_loads environ w md tr) = Ok (o, a) ->
  exists d, dial_info a = PDict d /\
    resolve_dial_info json_loads environ md = Ok (PDict d).
Proof.
  unfold entrypoint, bind, emit, lift, ret, raise. intros Hent.
  destruct (resolve_dial_info json_loads environ md) as [di|e];
    cbn in Hent; [|discriminate].
  destruct di as [| | | | |d]; cbn in Hent; try discriminate.
  exists d. split; [|reflexivity].
  destruct (dict_get d "prospect_name"); cbn in Hent;
  destruct (dict_get d "phone_number") as [v|]; cbn in Hent; try discriminate;
  destruct (truthy v); cbn in Hent;
    try destruct (dial_fails w); cbn in Hent;
    injection Hent as Ho Ha; subst; reflexivity.
Qed.

(** The metadata of the spec's scenario, [{"phone_number":"+15551234567"}],
    and [json.loads] on it. *)
Definition dq : string := String "034"%char EmptyString.

Definition scenario_metadata : string :=
  "{" ++ dq ++ "phone_number" ++ dq ++ ":" ++ dq ++ "+15551234567" ++ dq ++ "}".

Definition scenario_json_loads (s : string) : res pyval :=
  if String.eqb s scenario_metadata
  then Ok (PDict [("phone_number", PStr "+15551234567")])
  else Err JSONDecodeError.

Definition empty_environ : string -> option string := fun _ => None.

(** C3. For every agent built by [entrypoint] whose [dial_info] has no
    truthy [transfer_to] value (absent or empty), [transfer_call] returns
    "cannot transfer call" without any request: no announcement, no
    transfer, the trace (and the agent) unchanged. *)
Theorem transfer_without_target :
  forall json_loads environ w0 md tr0 o a w tr,
    fst (entrypoint json_loads environ w0 md tr0) = Ok (o, a) ->
    (forall v, py_getitem (dial_info a) "transfer_to" = Ok v -> truthy v = false) ->
    transfer_call w a tr = (Ok (PStr "cannot transfer call"), tr).
Proof.
  intros json_loads environ w0 md tr0 o a w tr Hent Hno.
  destruct (entrypoint_agent_dict _ _ _ _ _ _ _ Hent) as (d & Hd & Hres).
  destruct (resolve_dict_keys _ _ _ _ Hres) as (_ & Kt & _).
  destruct (dict_get d "transfer_to") as [v|] eqn:Ev; [|congruence].
  assert (Hv : py_getitem (dial_info a) "transfer_to" = Ok v)
    by (rewrite Hd; cbn; now rewrite Ev).
  specialize (Hno v Hv).
  unfold transfer_call, bind, lift, ret. rewrite Hv, Hno. reflexivity.
Qed.

Lemma transfer_without_target_witness :
  fst (entrypoint scenario_json_loads empty_environ calm_world
         (PStr scenario_metadata) [])
    = Ok (Answered,
          {| participant_of := Some {| identity := "phone_user" |};
             dial_info := PDict [("phone_number", PStr "+15551234567");
                                 ("transfer_to", PStr "");
                                 ("prospect_name", PStr "there")] |}) /\
  transfer_call calm_world
    {| participant_of := Some {| identity := "phone_user" |};
       dial_info := PDict [("phone_number", PStr "+15551234567");
                           ("transfer_to", PStr "");
                           ("prospect_name", PStr "there")] |} []
    = (Ok (PStr "cannot transfer call"), []).
Proof.
  split; [reflexivity|].
  apply (transfer_without_target scenario_json_loads empty_environ calm_world
           (PStr scenario_metadata) [] Answered).
  - reflexivity.
  - intros v Hv. cbn in Hv. injection Hv as <-. reflexivity.
Defined.

(** ** Transfer, hang-up and dial ordering *)

Definition announce_instructions : string :=
  "let the user know you'll be transferring them".
Definition apology_instructions : string :=
  "there was an error transferring the call.".

(** Every event of a trace that starts with a non-transfer event [e]
    and contains a transfer comes after [e]. *)
Lemma first_event_precedes_transfer (e : event) (rest tr1 tr2 : list event)
  (id : string) (to : pyval) :
  is_transfer e = false ->
  e :: rest = tr1 ++ EvTransfer id to :: tr2 -> In e tr1.
Proof.
  intros He Hsplit. destruct tr1 as [|e1 tr1]; cbn in Hsplit.
  - injection Hsplit as He' _. subst e. discriminate.
  - injection Hsplit as He' _. subst e1. now left.
Qed.

(** The trace of [transfer_call] is empty or starts with the announcement. *)
Lemma transfer_call_trace_shape (w : world) (a : outbound_caller) :
  snd (transfer_call w a []) = [] \/
  exists rest, snd (transfer_call w a []) = EvReply announce_instructions :: rest.
Proof.
  unfold transfer_call, bind, lift, ret, raise, emit, try_except,
    participant_identity, hangup.
  destruct (py_getitem (dial_info a) "transfer_to") as [v|e]; cbn; [|now left].
  destruct (truthy v); cbn; [|now left].
  right.
  destruct (participant_of a); cbn;
    try destruct (transfer_fails w); cbn;
    try destruct (delete_fails w); cbn; eexists; reflexivity.
Qed.

(** C4. [transfer_call] issues the provider transfer request only after
    the announcement turn has been delivered: in its trace, every
    transfer request is preceded by the completed announcement. *)
Theorem transfer_request_after_announcement :
  forall (w : world) (a : outbound_caller) (tr1 tr2 : list event)
         (id : string) (to : pyval),
    snd (transfer_call w a []) = tr1 ++ EvTransfer id to :: tr2 ->
    In (EvReply announce_instructions) tr1.
Proof.
  intros w a tr1 tr2 id to Hsplit.
  destruct (transfer_call_trace_shape w a) as [Hnil | [rest Hrest]].
  - rewrite Hnil in Hsplit. destruct tr1; discriminate.
  - rewrite Hrest in Hsplit.
    exact (first_event_precedes_transfer (EvReply announce_instructions)
             _ _ _ _ _ eq_refl Hsplit).
Qed.

Lemma transfer_request_after_announcement_witness :
  snd (transfer_call calm_world sample_caller [])
    = [EvReply announce_instructions] ++
      EvTransfer "phone_user" (PStr "+15557654321") :: [] /\
  In (EvReply announce_instructions) [EvReply announce_instructions].
Proof.
  split; [reflexivity|].
  apply (transfer_request_after_announcement calm_world sample_caller
           [EvReply announce_instructions] [] "phone_user" (PStr "+15557654321")).
  reflexivity.
Defined.

(** C5. When the provider transfer request fails, [transfer_call] has
    the policy apologise and then hangs up (deletes the room). *)
Theorem failed_transfer_apologises_then_hangs_up :
  forall (w : world) (a : outbound_caller) (p : participant) (v : pyval),
    participant_of a = Some p ->
    py_getitem (dial_info a) "transfer_to" = Ok v ->
    truthy v = true ->
    transfer_fails w = true ->
    transfer_call w a []
      = (if delete_fails w then Err TwirpError else Ok PNone,
         [EvReply announce_instructions; EvTransfer (identity p) v;
          EvReply apology_instructions; EvDeleteRoom]).
Proof.
  intros w a p v Hp Hv Ht Hf.
  unfold transfer_call, bind, lift, ret, raise, emit, try_except,
    participant_identity, hangup.
  rewrite Hv, Ht, Hp, Hf. cbn.
  destruct (delete_fails w); reflexivity.
Qed.

Definition failing_transfer_world : world :=
  {| current_speech := false; transfer_fails := true;
     delete_fails := false; dial_fails := false |}.

Lemma failed_transfer_apologises_then_hangs_up_witness :
  transfer_call failing_transfer_world sample_caller []
    = (Ok PNone,
       [EvReply announce_instructions;
        EvTransfer "phone_user" (PStr "+15557654321");
        EvReply apology_instructions; EvDeleteRoom]).
Proof.
  exact (failed_transfer_apologises_then_hangs_up failing_transfer_world
           sample_caller {| identity := "phone_user" |} (PStr "+15557654321")
           eq_refl eq_refl eq_refl eq_refl).
Defined.

(** C6. When a spoken turn is in progress, [end_call] waits for it before
    deleting the room: with a bound participant its trace is the
    completed speech followed by the deletion, and in every case a
    deletion in its trace is preceded by the completed speech. *)
Theorem end_call_waits_for_speech :
  forall (w : world) (a : outbound_caller),
    current_speech w = true ->
    snd (end_call w a [])
      = match participant_of a with
        | Some _ => [EvSpeechDone; EvDeleteRoom]
        | None => []
        end /\
    (forall tr1 tr2, snd (end_call w a []) = tr1 ++ EvDeleteRoom :: tr2 ->
                     In EvSpeechDone tr1).
Proof.
  intros w a Hs.
  assert (Htr : snd (end_call w a [])
                = match participant_of a with
                  | Some _ => [EvSpeechDone; EvDeleteRoom]
                  | None => []
                  end).
  { unfold end_call, bind, ret, raise, emit, participant_identity, hangup.
    destruct (participant_of a); cbn; [|reflexivity].
    rewrite Hs. cbn. destruct (delete_fails w); reflexivity. }
  split; [exact Htr|].
  intros tr1 tr2 Hsplit. rewrite Htr in Hsplit.
  destruct (participant_of a).
  - destruct tr1 as [|e1 tr1]; cbn in Hsplit; injection Hsplit as He1 Hrest;
      [discriminate|]. subst e1. now left.
  - destruct tr1; discriminate.
Qed.

Definition speaking_world : world :=
  {| current_speech := true; transfer_fails := false;
     delete_fails := false; dial_fails := false |}.

Lemma end_call_waits_for_speech_witness :
  snd (end_call speaking_world sample_caller []) = [EvSpeechDone; EvDeleteRoom].
Proof.
  exact (proj1 (end_call_waits_for_speech speaking_world sample_caller eq_refl)).
Defined.

(** C7. When the resolved phone number is empty (falsy), [entrypoint]
    never issues a dial request: it starts the session, shuts the job
    down and returns on the no-number path. *)
Theorem no_number_never_dials :
  forall json_loads environ w md di v,
    resolve_dial_info json_loads environ md = Ok di ->
    py_getitem di "phone_number" = Ok v ->
    truthy v = false ->
    entrypoint json_loads environ w md []
      = (Ok (NoNumber, new_outbound_caller di),
         [EvConnect; EvSessionStart; EvShutdown]) /\
    filter is_dial (snd (entrypoint json_loads environ w md [])) = [].
Proof.
  intros json_loads environ w md di v Hres Hv Ht.
  assert (Hent : entrypoint json_loads environ w md []
                 = (Ok (NoNumber, new_outbound_caller di),
                    [EvConnect; EvSessionStart; EvShutdown])).
  { unfold entrypoint, bind, emit, lift, ret, raise.
    rewrite Hres. cbn.
    destruct di as [| | | | |d]; try discriminate. cbn.
    destruct (dict_get d "prospect_name"); cbn;
      cbn in Hv; rewrite Hv; cbn; rewrite Ht; reflexivity. }
  split; [exact Hent|]. rewrite Hent. reflexivity.
Qed.

Definition empty_object_json_loads (s : string) : res pyval :=
  if String.eqb s "{}" then Ok (PDict []) else Err JSONDecodeError.

Lemma no_number_never_dials_witness :
  entrypoint empty_object_json_loads empty_environ calm_world (PStr "{}") []
    = (Ok (NoNumber,
           new_outbound_caller
             (PDict [("phone_number", PStr ""); ("transfer_to", PStr "");
                     ("prospect_name", PStr "there")])),
       [EvConnect; EvSessionStart; EvShutdown]).
Proof.
  exact (proj1 (no_number_never_dials empty_object_json_loads empty_environ
                  calm_world (PStr "{}")
                  (PDict [("phone_number", PStr ""); ("transfer_to", PStr "");
                          ("prospect_name", PStr "there")])
                  (PStr "") eq_refl eq_refl eq_refl)).
Defined.

(** C10. Before a participant is bound, [end_call] and
    [detected_answering_machine] raise AttributeError (from
    [self.participant.identity]) without any request; the agent is
    created unbound, and [set_participant] is what binds it. *)
Theorem unbound_participant_tools_raise :
  (forall (w : world) (a : outbound_caller) (tr : list event),
     participant_of a = None ->
     end_call w a tr = (Err AttributeError, tr) /\
     detected_answering_machine w a tr = (Err AttributeError, tr)) /\
  (forall di, participant_of (new_outbound_caller di) = None) /\
  (forall p a, participant_of (set_participant p a) = Some p).
Proof.
  split; [|split; reflexivity].
  intros w a tr Hp.
  unfold end_call, detected_answering_machine, bind, participant_identity, raise.
  rewrite Hp. split; reflexivity.
Qed.

Lemma unbound_participant_tools_raise_witness :
  end_call calm_world (new_outbound_caller (PDict [])) [EvConnect]
    = (Err AttributeError, [EvConnect]).
Proof.
  exact (proj1 (proj1 unbound_participant_tools_raise calm_world
                  (new_outbound_caller (PDict [])) [EvConnect] eq_refl)).
Defined.

(** ** The regex fallback on malformed metadata *)

Fixpoint str_drop (n : nat) (s : string) : string :=
  match n, s with
  | O, _ => s
  | S n', String _ s' => str_drop n' s'
  | S _, EmptyString => EmptyString
  end.

Fixpoint all_chars (f : ascii -> bool) (s : string) : bool :=
  match s with
  | EmptyString => true
  | String c s' => f c && all_chars f s'
  end.

Lemma sep_not_tok (c : ascii) : is_sep c && is_tok c = false.
Proof. destruct c as [[] [] [] [] [] [] [] []]; reflexivity. Qed.

Lemma strip_prefix_app (p r : string) : strip_prefix p (p ++ r) = Some r.
Proof.
  induction p as [|c p IH]; cbn; [reflexivity|].
  now rewrite Ascii.eqb_refl.
Qed.

Lemma tok_run_app (tok post : string) :
  all_chars is_tok tok = true ->
  match post with String c _ => is_tok c = false | EmptyString => True end ->
  tok_run (tok ++ post) = tok.
Proof.
  intros Htok Hpost. induction tok as [|c tok IH]; cbn in *.
  - destruct post as [|c post]; [reflexivity|]. cbn. now rewrite Hpost.
  - apply andb_prop in Htok as [Hc Hrest]. rewrite Hc, IH; auto.
Qed.

Lemma seps_star_tok_app (sep tok post : string) :
  all_chars is_sep sep = true ->
  tok <> EmptyString -> all_chars is_tok tok = true ->
  match post with String c _ => is_tok c = false | EmptyString => True end ->
  seps_star_tok (sep ++ tok ++ post) = Some tok.
Proof.
  intros Hsep Hne Htok Hpost. induction sep as [|c sep IH]; cbn in *.
  - destruct tok as [|c tok]; [congruence|]. cbn in Htok.
    apply andb_prop in Htok as [Hc Hrest].
    pose proof (sep_not_tok c) as Hdis. rewrite Hc, andb_true_r in Hdis.
    cbn. rewrite Hdis. unfold tok_plus. cbn. rewrite Hc.
    rewrite (tok_run_app tok post Hrest Hpost). reflexivity.
  - apply andb_prop in Hsep as [Hc Hrest]. rewrite Hc, IH; auto.
Qed.

Lemma re_search_skip (label pre rest : string) :
  (forall n, (n < String.length pre)%nat ->
             starts_with label (str_drop n (pre ++ rest)) = false) ->
  re_search label (pre ++ rest) = re_search label rest.
Proof.
  induction pre as [|c pre IH]; intros Hno; cbn; [reflexivity|].
  assert (H0 := Hno O ltac:(cbn; lia)). cbn in H0.
  unfold match_at, starts_with in *.
  destruct (strip_prefix label (String c (pre ++ rest))); [discriminate|].
  apply IH. intros n Hn. exact (Hno (S n) ltac:(cbn; lia)).
Qed.

Lemma dict_get_set_default (d : list (string * pyval)) (k k' : string) (v x : pyval) :
  dict_get d k' = Some x ->
  exists d', set_default (PDict d) k v = Ok (PDict d') /\ dict_get d' k' = Some x.
Proof.
  intros Hx. unfold set_default, py_contains, py_setitem.
  destruct (dict_get d k) eqn:Ek; [eauto|].
  eexists. split; [reflexivity|].
  destruct (String.eqb k' k) eqn:E.
  - apply String.eqb_eq in E. subst. congruence.
  - apply String.eqb_neq in E. now rewrite dict_get_set_other.
Qed.

(** ** The regex search: what a match looks like *)

Lemma strip_prefix_inv (p s r : string) :
  strip_prefix p s = Some r -> s = (p ++ r)%string.
Proof.
  revert s. induction p as [|c p IH]; intros s H; cbn in H.
  - now injection H as <-.
  - destruct s as [|c' s]; [discriminate|].
    destruct (Ascii.eqb c c') eqn:E; [|discriminate].
    apply Ascii.eqb_eq in E. subst c'. cbn. f_equal. now apply IH.
Qed.

Definition head_not_tok (s : string) : Prop :=
  match s with String c _ => is_tok c = false | EmptyString => True end.

Lemma tok_run_inv (s : string) :
  exists post, s = (tok_run s ++ post)%string /\
    all_chars is_tok (tok_run s) = true /\ head_not_tok post.
Proof.
  induction s as [|c s (post & Hs & Ht & Hp)]; cbn.
  - exists EmptyString. repeat split.
  - destruct (is_tok c) eqn:Ec; cbn.
    + exists post. rewrite Ec. cbn. split; [now f_equal|auto].
    + exists (String c s). cbn. auto.
Qed.

Lemma tok_plus_inv (s t : string) :
  tok_plus s = Some t ->
  t <> EmptyString /\ all_chars is_tok t = true /\
  exists post, s = (t ++ post)%string /\ head_not_tok post.
Proof.
  unfold tok_plus. destruct (tok_run_inv s) as (post & Hs & Ht & Hp).
  destruct (tok_run s) as [|c r] eqn:E; [discriminate|].
  intros H. injection H as <-. split; [discriminate|]. eauto.
Qed.

Lemma seps_star_tok_inv (s t : string) :
  seps_star_tok s = Some t ->
  exists sep post, s = (sep ++ t ++ post)%string /\ all_chars is_sep sep = true /\
    t <> EmptyString /\ all_chars is_tok t = true /\ head_not_tok post.
Proof.
  induction s as [|c s IH]; cbn; intros H.
  - discriminate.
  - destruct (is_sep c) eqn:Ec.
    + destruct (seps_star_tok s) as [t'|] eqn:E.
      * injection H as <-. destruct (IH eq_refl) as (sep & post & Hs & Hsep & R).
        exists (String c sep), post. cbn. rewrite Ec, Hsep. split; [now f_equal|auto].
      * destruct (tok_plus_inv _ _ H) as (Hne & Ht & post & Hs & Hp).
        exists EmptyString, post. auto.
    + destruct (tok_plus_inv _ _ H) as (Hne & Ht & post & Hs & Hp).
      exists EmptyString, post. auto.
Qed.

Lemma match_at_inv (label s t : string) :
  match_at label s = Some t ->
  exists sep post, s = (label ++ sep ++ t ++ post)%string /\ sep <> EmptyString /\
    all_chars is_sep sep = true /\ t <> EmptyString /\
    all_chars is_tok t = true /\ head_not_tok post.
Proof.
  unfold match_at. destruct (strip_prefix label s) as [rest|] eqn:E; [|discriminate].
  apply strip_prefix_inv in E. subst s.
  destruct rest as [|c rest]; cbn; [discriminate|].
  destruct (is_sep c) eqn:Ec; [|discriminate]. intros H.
  destruct (seps_star_tok_inv _ _ H) as (sep & post & -> & Hsep & R).
  exists (String c sep), post. cbn. rewrite Ec, Hsep. split; [reflexivity|].
  split; [discriminate|auto].
Qed.

(** A labelled token at the start of [s]: the label, one or more
    separators and a non-empty run of [+] and digits. *)
Definition labelled_token_at (label s : string) : Prop :=
  exists sep tok post, s = (label ++ sep ++ tok ++ post)%string /\
    sep <> EmptyString /\ all_chars is_sep sep = true /\
    tok <> EmptyString /\ all_chars is_tok tok = true.

Lemma tok_plus_tok_head (c : ascii) (rest : string) :
  is_tok c = true -> tok_plus (String c rest) <> None.
Proof. intros Hc. unfold tok_plus. cbn. rewrite Hc. discriminate. Qed.

Lemma seps_star_tok_some (sep : string) (c : ascii) (rest : string) :
  all_chars is_sep sep = true -> is_tok c = true ->
  seps_star_tok (sep ++ String c rest) <> None.
Proof.
  intros Hsep Hc. induction sep as [|c' sep IH]; cbn in *.
  - destruct (is_sep c); [destruct (seps_star_tok rest); [discriminate|]|];
      apply tok_plus_tok_head; exact Hc.
  - apply andb_prop in Hsep as [Hc' Hsep]. rewrite Hc'.
    destruct (seps_star_tok (sep ++ String c rest)); [discriminate|].
    exfalso. now apply IH.
Qed.

Lemma match_at_none (label s : string) :
  match_at label s = None <-> ~ labelled_token_at label s.
Proof.
  split.
  - intros H (sep & tok & post & -> & Hsne & Hsep & Htne & Htok).
    unfold match_at in H. rewrite strip_prefix_app in H.
    destruct sep as [|c sep]; [congruence|]. cbn in Hsep, H.
    apply andb_prop in Hsep as [Hc Hsep]. rewrite Hc in H.
    destruct tok as [|d tok]; [congruence|]. cbn in Htok.
    apply andb_prop in Htok as [Hd _].
    exact (seps_star_tok_some sep d (tok ++ post) Hsep Hd H).
  - intros H. destruct (match_at label s) as [t|] eqn:E; [|reflexivity].
    exfalso. apply H.
    destruct (match_at_inv _ _ _ E) as (sep & post & Hs & Hsne & Hsep & Htne & Htok & _).
    exists sep, t, post. auto.
Qed.

Lemma re_search_skip_none (label pre rest : string) :
  (forall n, (n < String.length pre)%nat ->
             match_at label (str_drop n (pre ++ rest)) = None) ->
  re_search label (pre ++ rest) = re_search label rest.
Proof.
  induction pre as [|c pre IH]; intros Hno; cbn; [reflexivity|].
  assert (H0 := Hno O ltac:(cbn; lia)). cbn in H0. rewrite H0.
  apply IH. intros n Hn. exact (Hno (S n) ltac:(cbn; lia)).
Qed.

(** C8 (counterexample). In the malformed (single-quoted) metadata
    [{'alt_phone_number': '+19990000000', 'phone_number': '+15551234567'}]
    the token [+15551234567] stands under the label [phone_number], yet
    the fallback extracts [+19990000000]: the search stops at the first
    text [phone_number] followed by separators and a token. *)
Lemma regex_takes_earlier_label :
  let s := "{'alt_phone_number': '+19990000000', 'phone_number': '+15551234567'}" in
  str_contains "'phone_number': '+15551234567'" s = true /\
  resolve_dial_info (fun _ => Err JSONDecodeError) empty_environ (PStr s)
    = Ok (PDict [("phone_number", PStr "+19990000000");
                 ("transfer_to", PStr ""); ("prospect_name", PStr "there")]).
Proof. split; vm_compute; reflexivity. Qed.

(** C8 (amended). When [json.loads] rejects the metadata, the fallback
    sets [phone_number] to the maximal run of [+] and digits in the
    leftmost place where the text [phone_number] is followed by one or
    more separators (single quote, double quote, whitespace, colon) and a
    [+] or digit; so a token under the label [phone_number] is recovered
    exactly when no earlier occurrence of that text is itself followed by
    separators and a [+] or digit. *)
Theorem regex_recovers_first_labelled_token :
  forall json_loads environ (pre sep tok post : string),
    let s := (pre ++ "phone_number" ++ sep ++ tok ++ post)%string in
    json_loads s = Err JSONDecodeError ->
    sep <> EmptyString -> all_chars is_sep sep = true ->
    tok <> EmptyString -> all_chars is_tok tok = true ->
    match post with String c _ => is_tok c = false | EmptyString => True end ->
    (forall n, (n < String.length pre)%nat ->
               ~ labelled_token_at "phone_number" (str_drop n s)) ->
    exists d, resolve_dial_info json_loads environ (PStr s) = Ok (PDict d) /\
              dict_get d "phone_number" = Some (PStr tok).
Proof.
  intros json_loads environ pre sep tok post s Hjson Hsne Hsep Htne Htok Hpost Hno.
  assert (Hre : re_search "phone_number" s = Some tok).
  { unfold s. rewrite re_search_skip_none
      by (intros n Hn; apply match_at_none; exact (Hno n Hn)).
    destruct sep as [|c sep]; [congruence|]. cbn in Hsep.
    apply andb_prop in Hsep as [Hc Hsep].
    cbn. unfold match_at. cbn. rewrite Hc.
    rewrite (seps_star_tok_app sep tok post Hsep Htne Htok Hpost). reflexivity. }
  assert (Hnonempty : truthy (PStr s) = true).
  { unfold s. destruct pre; reflexivity. }
  assert (Hparse : exists d0, parse_metadata json_loads (PStr s) = PDict d0 /\
                              dict_get d0 "phone_number" = Some (PStr tok)).
  { unfold parse_metadata. rewrite Hnonempty, Hjson.
    unfold regex_dial_info. rewrite Hre.
    destruct (re_search "transfer_to" s); eexists; split; reflexivity. }
  destruct Hparse as (d0 & Hd0 & Hg0).
  unfold resolve_dial_info. rewrite Hd0.
  destruct (dict_get_set_default d0 "phone_number" _ (getenv environ "DEFAULT_PHONE_NUMBER" "") _ Hg0)
    as (d1 & -> & Hg1).
  destruct (dict_get_set_default d1 "transfer_to" _ (getenv environ "DEFAULT_TRANSFER_NUMBER" "") _ Hg1)
    as (d2 & -> & Hg2).
  destruct (dict_get_set_default d2 "prospect_name" _ (PStr "there") _ Hg2)
    as (d3 & -> & Hg3).
  eauto.
Qed.

Lemma regex_recovers_first_labelled_token_witness :
  exists d,
    resolve_dial_info (fun _ => Err JSONDecodeError) empty_environ
      (PStr ("phone_number x, " ++ "phone_number" ++ ": " ++ "+1555" ++ EmptyString)%string)
      = Ok (PDict d) /\
    dict_get d "phone_number" = Some (PStr "+1555").
Proof.
  apply (regex_recovers_first_labelled_token (fun _ => Err JSONDecodeError)
           empty_environ "phone_number x, " ": " "+1555" EmptyString).
  - reflexivity.
  - discriminate.
  - reflexivity.
  - discriminate.
  - reflexivity.
  - exact I.
  - intros n Hn. apply (proj1 (match_at_none _ _)).
    do 16 (destruct n as [|n]; [vm_compute; reflexivity|]).
    cbn in Hn. lia.
Defined.

(** ** Metadata that [json.loads] decodes to a non-object *)

Definition json_loads_42 (s : string) : res pyval :=
  if String.eqb s "42" then Ok (PInt 42) else Err JSONDecodeError.

(** C9 (code bug). The string metadata [42] is valid JSON for a number:
    the [try] block accepts it, and the defaulting step after it
    ([phone_number not in dial_info] on an int) raises TypeError, which
    escapes [entrypoint] right after [ctx.connect()]; no [dial_info] is
    returned. *)
Theorem scalar_json_metadata_raises :
  forall json_loads environ w,
    json_loads "42" = Ok (PInt 42) ->
    resolve_dial_info json_loads environ (PStr "42") = Err TypeError /\
    entrypoint json_loads environ w (PStr "42") [] = (Err TypeError, [EvConnect]).
Proof.
  intros json_loads environ w Hj.
  assert (Hr : resolve_dial_info json_loads environ (PStr "42") = Err TypeError).
  { unfold resolve_dial_info, parse_metadata. cbn. rewrite Hj. reflexivity. }
  split; [exact Hr|].
  unfold entrypoint, bind, emit, lift, raise. cbn. rewrite Hr. reflexivity.
Qed.

Lemma scalar_json_metadata_raises_witness :
  resolve_dial_info json_loads_42 empty_environ (PStr "42") = Err TypeError.
Proof.
  exact (proj1 (scalar_json_metadata_raises json_loads_42 empty_environ calm_world eq_refl)).
Defined.

(** * Further properties of the code *)

Lemma re_search_inv (label s t : string) :
  re_search label s = Some t ->
  exists pre sep post, s = (pre ++ label ++ sep ++ t ++ post)%string /\
    sep <> EmptyString /\ all_chars is_sep sep = true /\ t <> EmptyString /\
    all_chars is_tok t = true /\ head_not_tok post.
Proof.
  induction s as [|c s IH]; cbn [re_search]; intros H.
  - destruct (match_at label EmptyString) eqn:E; [|discriminate].
    injection H as ->. destruct (match_at_inv _ _ _ E) as (sep & post & Hs & R).
    exists EmptyString, sep, post. auto.
  - destruct (match_at label (String c s)) eqn:E.
    + injection H as ->. destruct (match_at_inv _ _ _ E) as (sep & post & Hs & R).
      exists EmptyString, sep, post. auto.
    + destruct (IH H) as (pre & sep & post & Hs & R).
      exists (String c pre), sep, post. cbn. split; [now f_equal|auto].
Qed.

Lemma starts_with_app (p x : string) : starts_with p (p ++ x) = true.
Proof. unfold starts_with. now rewrite strip_prefix_app. Qed.

Lemma str_contains_starts (p s : string) :
  starts_with p s = true -> str_contains p s = true.
Proof. destruct s; cbn [str_contains]; intros ->; reflexivity. Qed.

Lemma str_contains_app (p pre x : string) : str_contains p (pre ++ p ++ x) = true.
Proof.
  induction pre as [|c pre IH]; cbn [append].
  - apply str_contains_starts, starts_with_app.
  - cbn [str_contains]. rewrite IH. apply orb_true_r.
Qed.

Lemma re_search_absent (label s : string) :
  str_contains label s = false -> re_search label s = None.
Proof.
  intros H. destruct (re_search label s) as [t|] eqn:E; [|reflexivity].
  destruct (re_search_inv _ _ _ E) as (pre & sep & post & Hs & _).
  subst s. now rewrite str_contains_app in H.
Qed.

(** X1. A string the regex fallback extracts is a non-empty run of [+]
    and digits, taken whole: it stands in the input right after the
    label and one or more separators, and the next character (if any) is
    neither [+] nor a digit. *)
Theorem re_search_sound :
  forall (label s t : string),
    re_search label s = Some t ->
    t <> EmptyString /\ all_chars is_tok t = true /\
    exists pre sep post, s = (pre ++ label ++ sep ++ t ++ post)%string /\
      sep <> EmptyString /\ all_chars is_sep sep = true /\ head_not_tok post.
Proof.
  intros label s t H.
  destruct (re_search_inv _ _ _ H) as (pre & sep & post & Hs & Hne & Hsep & Htne & Ht & Hp).
  split; [exact Htne|]. split; [exact Ht|]. exists pre, sep, post. auto.
Qed.

Lemma re_search_sound_witness :
  re_search "phone_number" "x phone_number: +1555 y" = Some "+1555" /\
  "+1555" <> EmptyString.
Proof.
  split; [reflexivity|].
  exact (proj1 (re_search_sound "phone_number" "x phone_number: +1555 y" "+1555"
                  eq_refl)).
Defined.

(** A labelled token with no earlier occurrence of the label is what
    the search returns, for any label. *)
Lemma re_search_labelled (label pre sep tok post : string) :
  sep <> EmptyString -> all_chars is_sep sep = true ->
  tok <> EmptyString -> all_chars is_tok tok = true -> head_not_tok post ->
  (forall n, (n < String.length pre)%nat ->
     starts_with label (str_drop n (pre ++ label ++ sep ++ tok ++ post)) = false) ->
  re_search label (pre ++ label ++ sep ++ tok ++ post) = Some tok.
Proof.
  intros Hsne Hsep Htne Htok Hpost Hno.
  rewrite (re_search_skip _ _ _ Hno).
  assert (Hm : match_at label (label ++ sep ++ tok ++ post) = Some tok).
  { unfold match_at. rewrite strip_prefix_app.
    destruct sep as [|c sep]; [congruence|]. cbn in Hsep |- *.
    apply andb_prop in Hsep as [Hc Hsep]. rewrite Hc.
    exact (seps_star_tok_app sep tok post Hsep Htne Htok Hpost). }
  destruct (label ++ sep ++ tok ++ post)%string; cbn [re_search]; now rewrite Hm.
Qed.

(** ** Resolution on a dict *)

(** The value [dial_info[k]] ends with when [k] defaults to [dflt]. *)
Definition resolved_value (d0 : list (string * pyval)) (k : string) (dflt : pyval) : pyval :=
  match dict_get d0 k with Some v => v | None => dflt end.

(** The dict [set_default] leaves when [dial_info] is a dict. *)
Definition defaulted (d : list (string * pyval)) (k : string) (v : pyval)
  : list (string * pyval) :=
  match dict_get d k with Some _ => d | None => dict_set d k v end.

Lemma set_default_on_dict (d : list (string * pyval)) (k : string) (v : pyval) :
  set_default (PDict d) k v = Ok (PDict (defaulted d k v)).
Proof. unfold set_default, py_contains, defaulted. destruct (dict_get d k); reflexivity. Qed.

Lemma defaulted_same (d : list (string * pyval)) (k : string) (v : pyval) :
  dict_get (defaulted d k v) k = Some (resolved_value d k v).
Proof.
  unfold defaulted, resolved_value.
  destruct (dict_get d k) eqn:Ek; [exact Ek|apply dict_get_set_same].
Qed.

Lemma defaulted_other (d : list (string * pyval)) (k k' : string) (v : pyval) :
  k' <> k -> dict_get (defaulted d k v) k' = dict_get d k'.
Proof.
  intros Hne. unfold defaulted.
  destruct (dict_get d k); [reflexivity|]. now apply dict_get_set_other.
Qed.

Lemma resolved_value_defaulted (d : list (string * pyval)) (k k' : string) (v w : pyval) :
  k' <> k -> resolved_value (defaulted d k v) k' w = resolved_value d k' w.
Proof. intros Hne. unfold resolved_value. now rewrite defaulted_other. Qed.

Definition dial_info_keys : list string := ["phone_number"; "transfer_to"; "prospect_name"].

Lemma resolve_parsed_dict (json_loads : string -> res pyval)
  (environ : string -> option string) (md : pyval) (d0 : list (string * pyval)) :
  parse_metadata json_loads md = PDict d0 ->
  exists d, resolve_dial_info json_loads environ md = Ok (PDict d) /\
    dict_get d "phone_number"
      = Some (resolved_value d0 "phone_number" (getenv environ "DEFAULT_PHONE_NUMBER" "")) /\
    dict_get d "transfer_to"
      = Some (resolved_value d0 "transfer_to" (getenv environ "DEFAULT_TRANSFER_NUMBER" "")) /\
    dict_get d "prospect_name" = Some (resolved_value d0 "prospect_name" (PStr "there")) /\
    (forall k, ~ In k dial_info_keys -> dict_get d k = dict_get d0 k).
Proof.
  intros Hp. unfold resolve_dial_info. rewrite Hp, !set_default_on_dict.
  eexists. split; [reflexivity|].
  split; [|split; [|split]].
  - rewrite defaulted_other, defaulted_other, defaulted_same by discriminate.
    reflexivity.
  - rewrite defaulted_other, defaulted_same by discriminate.
    now rewrite resolved_value_defaulted by discriminate.
  - rewrite defaulted_same.
    now rewrite !resolved_value_defaulted by discriminate.
  - intros k Hk. cbn in Hk.
    rewrite !defaulted_other by (intros ->; tauto). reflexivity.
Qed.

(** X2. When the metadata is a structured dict, a string that
    [json.loads] decodes to an object, or absent (falsy), resolution
    succeeds with a dict: each of [phone_number], [transfer_to] and
    [prospect_name] keeps the value the metadata gives it and otherwise
    gets its default ([DEFAULT_PHONE_NUMBER] or [""],
    [DEFAULT_TRANSFER_NUMBER] or [""], ["there"]); every other key is
    kept as given. *)
Theorem resolve_keeps_given_values :
  forall json_loads environ md d0,
    (md = PDict d0 \/
     (exists s, md = PStr s /\ s <> EmptyString /\ json_loads s = Ok (PDict d0)) \/
     (truthy md = false /\ d0 = [])) ->
    exists d, resolve_dial_info json_loads environ md = Ok (PDict d) /\
      dict_get d "phone_number"
        = Some (resolved_value d0 "phone_number" (getenv environ "DEFAULT_PHONE_NUMBER" "")) /\
      dict_get d "transfer_to"
        = Some (resolved_value d0 "transfer_to" (getenv environ "DEFAULT_TRANSFER_NUMBER" "")) /\
      dict_get d "prospect_name" = Some (resolved_value d0 "prospect_name" (PStr "there")) /\
      (forall k, ~ In k dial_info_keys -> dict_get d k = dict_get d0 k).
Proof.
  intros json_loads environ md d0 Hmd. apply resolve_parsed_dict.
  unfold parse_metadata.
  destruct Hmd as [-> | [(s & -> & Hne & Hj) | (Hf & ->)]].
  - destruct d0; reflexivity.
  - cbn. destruct (String.eqb s "") eqn:E;
      [apply String.eqb_eq in E; congruence|]. cbn. now rewrite Hj.
  - now rewrite Hf.
Qed.

Lemma resolve_keeps_given_values_witness :
  exists d,
    resolve_dial_info scenario_json_loads empty_environ (PStr scenario_metadata)
      = Ok (PDict d) /\
    dict_get d "phone_number" = Some (PStr "+15551234567") /\
    dict_get d "transfer_to" = Some (PStr "") /\
    dict_get d "prospect_name" = Some (PStr "there") /\
    (forall k, ~ In k dial_info_keys -> dict_get d k = None).
Proof.
  destruct (resolve_keeps_given_values scenario_json_loads empty_environ
              (PStr scenario_metadata) [("phone_number", PStr "+15551234567")])
    as (d & H1 & H2 & H3 & H4 & H5).
  - right. left. exists scenario_metadata. split; [reflexivity|].
    split; [discriminate|reflexivity].
  - exists d. split; [exact H1|]. split; [exact H2|]. split; [exact H3|].
    split; [exact H4|]. intros k Hk. rewrite (H5 k Hk). cbn [dict_get].
    destruct (String.eqb "phone_number" k) eqn:E; [|reflexivity].
    apply String.eqb_eq in E. subst. cbn in Hk. tauto.
Defined.

(** X3. On string metadata that [json.loads] rejects, the resolved
    [phone_number] and [transfer_to] are the regex fallback's matches
    when there are any and the environment defaults otherwise, and
    [prospect_name] is ["there"]. *)
Theorem resolve_malformed :
  forall json_loads environ s,
    s <> EmptyString ->
    json_loads s = Err JSONDecodeError ->
    exists d, resolve_dial_info json_loads environ (PStr s) = Ok (PDict d) /\
      dict_get d "phone_number"
        = Some (match re_search "phone_number" s with
                | Some t => PStr t
                | None => getenv environ "DEFAULT_PHONE_NUMBER" "" end) /\
      dict_get d "transfer_to"
        = Some (match re_search "transfer_to" s with
                | Some t => PStr t
                | None => getenv environ "DEFAULT_TRANSFER_NUMBER" "" end) /\
      dict_get d "prospect_name" = Some (PStr "there").
Proof.
  intros json_loads environ s Hne Hj.
  assert (Hp : parse_metadata json_loads (PStr s) = regex_dial_info s).
  { unfold parse_metadata. cbn.
    destruct (String.eqb s "") eqn:E; [apply String.eqb_eq in E; congruence|].
    cbn. now rewrite Hj. }
  unfold regex_dial_info in Hp.
  destruct (re_search "phone_number" s) as [tp|], (re_search "transfer_to" s) as [tt'|];
    cbn in Hp;
    destruct (resolve_parsed_dict json_loads environ _ _ Hp) as (d & Hd & H1 & H2 & H3 & _);
    exists d; split; auto.
Qed.

Lemma resolve_malformed_witness :
  exists d, resolve_dial_info (fun _ => Err JSONDecodeError) empty_environ
              (PStr "phone_number=+1555, transfer_to: +1666") = Ok (PDict d) /\
    dict_get d "phone_number" = Some (PStr "") /\
    dict_get d "transfer_to" = Some (PStr "+1666") /\
    dict_get d "prospect_name" = Some (PStr "there").
Proof.
  exact (resolve_malformed (fun _ => Err JSONDecodeError) empty_environ
           "phone_number=+1555, transfer_to: +1666" ltac:(discriminate) eq_refl).
Defined.

Lemma parse_malformed (json_loads : string -> res pyval) (s : string) :
  s <> EmptyString -> json_loads s = Err JSONDecodeError ->
  parse_metadata json_loads (PStr s) = regex_dial_info s.
Proof.
  intros Hne Hj. unfold parse_metadata. cbn.
  destruct (String.eqb s "") eqn:E; [apply String.eqb_eq in E; congruence|].
  cbn. now rewrite Hj.
Qed.

Lemma regex_dial_info_dict (s : string) :
  exists d0, regex_dial_info s = PDict d0 /\
    dict_get d0 "phone_number"
      = option_map PStr (re_search "phone_number" s) /\
    dict_get d0 "transfer_to"
      = option_map PStr (re_search "transfer_to" s).
Proof.
  unfold regex_dial_info.
  destruct (re_search "phone_number" s), (re_search "transfer_to" s);
    eexists; split; try reflexivity; split; reflexivity.
Qed.

(** X4. On string metadata that [json.loads] rejects, a token under the
    label [transfer_to] (separators, then a maximal run of [+] and
    digits) with no earlier occurrence of the text [transfer_to] is
    recovered exactly as the resolved [transfer_to]. *)
Theorem regex_recovers_transfer_to :
  forall json_loads environ (pre sep tok post : string),
    let s := (pre ++ "transfer_to" ++ sep ++ tok ++ post)%string in
    json_loads s = Err JSONDecodeError ->
    sep <> EmptyString -> all_chars is_sep sep = true ->
    tok <> EmptyString -> all_chars is_tok tok = true -> head_not_tok post ->
    (forall n, (n < String.length pre)%nat ->
               starts_with "transfer_to" (str_drop n s) = false) ->
    exists d, resolve_dial_info json_loads environ (PStr s) = Ok (PDict d) /\
              dict_get d "transfer_to" = Some (PStr tok).
Proof.
  intros json_loads environ pre sep tok post s Hj Hsne Hsep Htne Htok Hpost Hno.
  assert (Hre : re_search "transfer_to" s = Some tok)
    by (apply re_search_labelled; assumption).
  assert (Hne : s <> EmptyString) by (unfold s; destruct pre; discriminate).
  destruct (regex_dial_info_dict s) as (d0 & Hd0 & _ & Ht).
  rewrite <- (parse_malformed json_loads s Hne Hj) in Hd0.
  destruct (resolve_parsed_dict json_loads environ _ _ Hd0) as (d & Hd & _ & H2 & _).
  exists d. split; [exact Hd|]. rewrite H2. unfold resolved_value.
  now rewrite Ht, Hre.
Qed.

Lemma regex_recovers_transfer_to_witness :
  exists d,
    resolve_dial_info (fun _ => Err JSONDecodeError) empty_environ
      (PStr ("{'" ++ "transfer_to" ++ "': '" ++ "+15557654321" ++ "'}")%string)
      = Ok (PDict d) /\
    dict_get d "transfer_to" = Some (PStr "+15557654321").
Proof.
  apply (regex_recovers_transfer_to (fun _ => Err JSONDecodeError)
           empty_environ "{'" "': '" "+15557654321" "'}").
  - reflexivity.
  - discriminate.
  - reflexivity.
  - discriminate.
  - reflexivity.
  - reflexivity.
  - intros n Hn. destruct n as [|[|n]]; [reflexivity|reflexivity|cbn in Hn; lia].
Defined.

(** X5. On string metadata that [json.loads] rejects and that does not
    contain the text [phone_number], the resolved [phone_number] is the
    environment default ([DEFAULT_PHONE_NUMBER], or [""] when unset). *)
Theorem malformed_without_label_uses_default :
  forall json_loads environ s,
    s <> EmptyString ->
    json_loads s = Err JSONDecodeError ->
    str_contains "phone_number" s = false ->
    exists d, resolve_dial_info json_loads environ (PStr s) = Ok (PDict d) /\
      dict_get d "phone_number" = Some (getenv environ "DEFAULT_PHONE_NUMBER" "").
Proof.
  intros json_loads environ s Hne Hj Hc.
  destruct (regex_dial_info_dict s) as (d0 & Hd0 & Hp & _).
  rewrite <- (parse_malformed json_loads s Hne Hj) in Hd0.
  destruct (resolve_parsed_dict json_loads environ _ _ Hd0) as (d & Hd & H1 & _).
  exists d. split; [exact Hd|]. rewrite H1. unfold resolved_value.
  now rewrite Hp, (re_search_absent _ _ Hc).
Qed.

Lemma malformed_without_label_uses_default_witness :
  exists d, resolve_dial_info (fun _ => Err JSONDecodeError) empty_environ
              (PStr "{phone: +15551234567}") = Ok (PDict d) /\
    dict_get d "phone_number" = Some (PStr "").
Proof.
  exact (malformed_without_label_uses_default (fun _ => Err JSONDecodeError)
           empty_environ "{phone: +15551234567}" ltac:(discriminate) eq_refl eq_refl).
Defined.

(** ** Metadata that does not resolve to a dict *)

Lemma set_default_non_dict (x : pyval) (k : string) (v y : pyval) :
  (forall d, x <> PDict d) -> set_default x k v = Ok y -> y = x.
Proof.
  intros Hx. unfold set_default, py_contains, py_setitem.
  destruct x as [| | |s|l|d]; try discriminate.
  - destruct (str_contains k s); [congruence|discriminate].
  - destruct (existsb _ l); [congruence|discriminate].
  - exfalso. exact (Hx d eq_refl).
Qed.

Lemma resolve_non_dict (json_loads : string -> res pyval)
  (environ : string -> option string) (md : pyval) :
  (forall d, parse_metadata json_loads md <> PDict d) ->
  forall y, resolve_dial_info json_loads environ md = Ok y ->
  y = parse_metadata json_loads md.
Proof.
  intros Hx y. unfold resolve_dial_info.
  destruct (set_default _ "phone_number" _) as [y1|] eqn:E1; [|discriminate].
  apply set_default_non_dict in E1; [subst y1|exact Hx].
  destruct (set_default _ "transfer_to" _) as [y2|] eqn:E2; [|discriminate].
  apply set_default_non_dict in E2; [subst y2|exact Hx].
  intros E3. exact (set_default_non_dict _ _ _ _ Hx E3).
Qed.

(** X6. Resolution ends with a dict for every metadata except two kinds:
    a non-empty string that [json.loads] decodes to something other than
    an object, and a truthy value that is neither a string nor a dict. *)
Theorem resolve_dict_unless_non_object :
  forall json_loads environ md,
    (forall d, resolve_dial_info json_loads environ md <> Ok (PDict d)) ->
    (exists s v, md = PStr s /\ s <> EmptyString /\ json_loads s = Ok v /\
                 forall d, v <> PDict d) \/
    (truthy md = true /\ (forall s, md <> PStr s) /\ (forall d, md <> PDict d)).
Proof.
  intros json_loads environ md Hnot.
  assert (Hparse : forall d0, parse_metadata json_loads md <> PDict d0).
  { intros d0 Hp. destruct (resolve_parsed_dict json_loads environ md d0 Hp)
      as (d & Hd & _). exact (Hnot d Hd). }
  unfold parse_metadata in Hparse.
  destruct (truthy md) eqn:Ht; [|exfalso; exact (Hparse [] eq_refl)].
  destruct md as [| | |s|l|d].
  - discriminate.
  - right. split; [reflexivity|split; intros ? ?; discriminate].
  - right. split; [reflexivity|split; intros ? ?; discriminate].
  - left. destruct (json_loads s) as [v|[]] eqn:Ej;
      try (exfalso; exact (Hparse [] eq_refl)).
    + exists s, v. split; [reflexivity|].
      split; [intros ->; cbn in Ht; discriminate|]. split; [exact Ej|].
      intros d ->. exact (Hparse d eq_refl).
    + exfalso. destruct (regex_dial_info_dict s) as (d0 & Hd0 & _).
      exact (Hparse d0 Hd0).
  - right. split; [reflexivity|split; intros ? ?; discriminate].
  - exfalso. exact (Hparse d eq_refl).
Qed.

Lemma resolve_dict_unless_non_object_witness :
  (exists s v, PStr "42" = PStr s /\ s <> EmptyString /\ json_loads_42 s = Ok v /\
               forall d, v <> PDict d) \/
  (truthy (PStr "42") = true /\ (forall s, PStr "42" <> PStr s) /\
   (forall d, PStr "42" <> PDict d)).
Proof.
  apply (resolve_dict_unless_non_object json_loads_42 empty_environ (PStr "42")).
  intros d. vm_compute. discriminate.
Defined.

(** X7. String metadata that [json.loads] decodes to a non-object makes
    [entrypoint] raise right after [ctx.connect()]: no session start, no
    dial request. *)
Theorem non_object_json_aborts_entrypoint :
  forall json_loads environ w s v,
    s <> EmptyString ->
    json_loads s = Ok v ->
    (forall d, v <> PDict d) ->
    exists e, entrypoint json_loads environ w (PStr s) [] = (Err e, [EvConnect]).
Proof.
  intros json_loads environ w s v Hne Hj Hv.
  assert (Hp : parse_metadata json_loads (PStr s) = v).
  { unfold parse_metadata. cbn.
    destruct (String.eqb s "") eqn:E; [apply String.eqb_eq in E; congruence|].
    cbn. now rewrite Hj. }
  assert (Hnd : forall d, parse_metadata json_loads (PStr s) <> PDict d)
    by (rewrite Hp; exact Hv).
  pose proof (resolve_non_dict json_loads environ (PStr s) Hnd) as Hr.
  unfold entrypoint, bind, emit, lift, ret, raise.
  destruct (resolve_dial_info json_loads environ (PStr s)) as [y|e]; cbn.
  - rewrite (Hr y eq_refl), Hp. exists AttributeError.
    destruct v as [| | | | |d]; try reflexivity. exfalso. exact (Hv d eq_refl).
  - exists e. reflexivity.
Qed.

Definition json_loads_keys_array (s : string) : res pyval :=
  Ok (PList [PStr "phone_number"; PStr "transfer_to"; PStr "prospect_name"]).

Lemma non_object_json_aborts_entrypoint_witness :
  exists e, entrypoint json_loads_keys_array empty_environ calm_world
              (PStr "keys") [] = (Err e, [EvConnect]).
Proof.
  apply (non_object_json_aborts_entrypoint json_loads_keys_array empty_environ
           calm_world "keys" (PList [PStr "phone_number"; PStr "transfer_to";
                                     PStr "prospect_name"])).
  - discriminate.
  - reflexivity.
  - discriminate.
Defined.

(** ** The dial path of [entrypoint] *)

(** X8. When the resolved phone number is truthy, [entrypoint] connects,
    starts the session before dialling, dials exactly that number, and
    then either shuts down on a dial error (participant left unbound) or
    waits for the participant and binds [phone_user]. *)
Theorem entrypoint_dials_resolved_number :
  forall json_loads environ w md di v,
    resolve_dial_info json_loads environ md = Ok di ->
    py_getitem di "phone_number" = Ok v ->
    truthy v = true ->
    entrypoint json_loads environ w md []
      = if dial_fails w
        then (Ok (DialFailed, new_outbound_caller di),
              [EvConnect; EvSessionStart; EvDial v; EvShutdown])
        else (Ok (Answered, set_participant {| identity := "phone_user" |}
                                            (new_outbound_caller di)),
              [EvConnect; EvSessionStart; EvDial v; EvWaitParticipant]).
Proof.
  intros json_loads environ w md di v Hres Hv Ht.
  unfold entrypoint, bind, emit, lift, ret, raise.
  rewrite Hres. cbn.
  destruct di as [| | | | |d]; try discriminate. cbn.
  destruct (dict_get d "prospect_name"); cbn;
    cbn in Hv; rewrite Hv; cbn; rewrite Ht; cbn;
    destruct (dial_fails w); reflexivity.
Qed.

Lemma entrypoint_dials_resolved_number_witness :
  entrypoint scenario_json_loads empty_environ calm_world
    (PStr scenario_metadata) []
    = (Ok (Answered,
           set_participant {| identity := "phone_user" |}
             (new_outbound_caller
                (PDict [("phone_number", PStr "+15551234567");
                        ("transfer_to", PStr ""); ("prospect_name", PStr "there")]))),
       [EvConnect; EvSessionStart; EvDial (PStr "+15551234567"); EvWaitParticipant]).
Proof.
  exact (entrypoint_dials_resolved_number scenario_json_loads empty_environ
           calm_world (PStr scenario_metadata)
           (PDict [("phone_number", PStr "+15551234567");
                   ("transfer_to", PStr ""); ("prospect_name", PStr "there")])
           (PStr "+15551234567") eq_refl eq_refl eq_refl).
Defined.

Lemma entrypoint_binds_only_when_answered (json_loads : string -> res pyval)
  (environ : string -> option string) (w : world) (md : pyval)
  (tr : list event) (o : outcome) (a : outbound_caller) :
  fst (entrypoint json_loads environ w md tr) = Ok (o, a) ->
  o <> Answered -> participant_of a = None.
Proof.
  unfold entrypoint, bind, emit, lift, ret, raise. intros Hent Ho.
  destruct (resolve_dial_info json_loads environ md) as [di|e];
    cbn in Hent; [|discriminate].
  destruct di as [| | | | |d]; cbn in Hent; try discriminate.
  destruct (dict_get d "prospect_name"); cbn in Hent;
  destruct (dict_get d "phone_number") as [v|]; cbn in Hent; try discriminate;
  destruct (truthy v); cbn in Hent;
    try destruct (dial_fails w); cbn in Hent;
    injection Hent as <- <-; try reflexivity; congruence.
Qed.

(** X9. When [entrypoint] ends without an answered call (no number, or a
    dial error), the agent it built has no participant, so [end_call] and
    [detected_answering_machine] on it raise AttributeError without
    deleting the room. *)
Theorem unanswered_agent_tools_raise :
  forall json_loads environ w md tr o a w' tr',
    fst (entrypoint json_loads environ w md tr) = Ok (o, a) ->
    o <> Answered ->
    participant_of a = None /\
    end_call w' a tr' = (Err AttributeError, tr') /\
    detected_answering_machine w' a tr' = (Err AttributeError, tr').
Proof.
  intros json_loads environ w md tr o a w' tr' Hent Ho.
  pose proof (entrypoint_binds_only_when_answered _ _ _ _ _ _ _ Hent Ho) as Hp.
  split; [exact Hp|].
  unfold end_call, detected_answering_machine, bind, participant_identity, raise.
  rewrite Hp. split; reflexivity.
Qed.

Definition dial_error_world : world :=
  {| current_speech := false; transfer_fails := false;
     delete_fails := false; dial_fails := true |}.

Lemma unanswered_agent_tools_raise_witness :
  end_call calm_world
    (new_outbound_caller (PDict [("phone_number", PStr "+15551234567");
                                 ("transfer_to", PStr "");
                                 ("prospect_name", PStr "there")])) []
    = (Err AttributeError, []).
Proof.
  exact (proj1 (proj2 (unanswered_agent_tools_raise scenario_json_loads
           empty_environ dial_error_world (PStr scenario_metadata) [] DialFailed
           _ calm_world [] eq_refl ltac:(discriminate)))).
Defined.

(** ** The tools in detail *)

(** X10. A successful transfer: with a bound participant and a truthy
    [transfer_to], [transfer_call] announces, issues one transfer request
    to that participant and number, returns [None], and does not delete
    the room. *)
Theorem transfer_success_trace :
  forall (w : world) (a : outbound_caller) (p : participant) (v : pyval),
    participant_of a = Some p ->
    py_getitem (dial_info a) "transfer_to" = Ok v ->
    truthy v = true ->
    transfer_fails w = false ->
    transfer_call w a [] = (Ok PNone,
                            [EvReply announce_instructions; EvTransfer (identity p) v]).
Proof.
  intros w a p v Hp Hv Ht Hf.
  unfold transfer_call, bind, lift, ret, raise, emit, try_except, participant_identity.
  rewrite Hv, Ht, Hp, Hf. reflexivity.
Qed.

Lemma transfer_success_trace_witness :
  transfer_call calm_world sample_caller []
    = (Ok PNone, [EvReply announce_instructions;
                  EvTransfer "phone_user" (PStr "+15557654321")]).
Proof.
  exact (transfer_success_trace calm_world sample_caller {| identity := "phone_user" |}
           (PStr "+15557654321") eq_refl eq_refl eq_refl eq_refl).
Defined.

(** X11. With a truthy [transfer_to] but no bound participant, the
    AttributeError raised inside the [try] is caught: [transfer_call]
    announces, apologises and hangs up, and never issues a transfer
    request. *)
Theorem transfer_unbound_hangs_up :
  forall (w : world) (a : outbound_caller) (v : pyval),
    participant_of a = None ->
    py_getitem (dial_info a) "transfer_to" = Ok v ->
    truthy v = true ->
    transfer_call w a []
      = (if delete_fails w then Err TwirpError else Ok PNone,
         [EvReply announce_instructions; EvReply apology_instructions; EvDeleteRoom]).
Proof.
  intros w a v Hp Hv Ht.
  unfold transfer_call, bind, lift, ret, raise, emit, try_except,
    participant_identity, hangup.
  rewrite Hv, Ht, Hp. cbn. destruct (delete_fails w); reflexivity.
Qed.

Lemma transfer_unbound_hangs_up_witness :
  transfer_call calm_world (new_outbound_caller (dial_info sample_caller)) []
    = (Ok PNone, [EvReply announce_instructions; EvReply apology_instructions;
                  EvDeleteRoom]).
Proof.
  exact (transfer_unbound_hangs_up calm_world
           (new_outbound_caller (dial_info sample_caller)) (PStr "+15557654321")
           eq_refl eq_refl eq_refl).
Defined.

Definition available_slots : pyval :=
  PDict [("available_times", PList [PStr "1pm"; PStr "2pm"; PStr "3pm"])].

(** X12. The two query tools never change the call: with a bound
    participant, [look_up_availability] waits three seconds and returns
    the slots 1pm, 2pm, 3pm whatever the date, and [confirm_appointment]
    returns "reservation confirmed" without any request; with no
    participant both raise AttributeError. *)
Theorem query_tools_behaviour :
  forall (a : outbound_caller) (date time : string) (tr : list event),
    (forall p, participant_of a = Some p ->
       look_up_availability a date tr = (Ok available_slots, tr ++ [EvSleep 3]) /\
       confirm_appointment a date time tr = (Ok (PStr "reservation confirmed"), tr)) /\
    (participant_of a = None ->
       look_up_availability a date tr = (Err AttributeError, tr) /\
       confirm_appointment a date time tr = (Err AttributeError, tr)).
Proof.
  intros a date time tr.
  unfold look_up_availability, confirm_appointment, bind, emit, ret, raise,
    participant_identity.
  split; [intros p Hp|intros Hp]; rewrite Hp; split; reflexivity.
Qed.

Lemma query_tools_behaviour_witness :
  look_up_availability sample_caller "2026-10-20" []
    = (Ok available_slots, [EvSleep 3]).
Proof.
  exact (proj1 (proj1 (query_tools_behaviour sample_caller "2026-10-20" "3pm" [])
                  {| identity := "phone_user" |} eq_refl)).
Defined.

(** X13. [detected_answering_machine] hangs up at once: with a bound
    participant its only request is the room deletion, even when a
    spoken turn is in progress (it does not wait for the speech, unlike
    [end_call]). *)
Theorem answering_machine_hangs_up_at_once :
  forall (w : world) (a : outbound_caller) (p : participant),
    participant_of a = Some p ->
    detected_answering_machine w a []
      = (if delete_fails w then Err TwirpError else Ok PNone, [EvDeleteRoom]).
Proof.
  intros w a p Hp.
  unfold detected_answering_machine, bind, participant_identity, hangup, emit, ret, raise.
  rewrite Hp. cbn. destruct (delete_fails w); reflexivity.
Qed.

Lemma answering_machine_hangs_up_at_once_witness :
  detected_answering_machine speaking_world sample_caller [] = (Ok PNone, [EvDeleteRoom]).
Proof.
  exact (answering_machine_hangs_up_at_once speaking_world sample_caller
           {| identity := "phone_user" |} eq_refl).
Defined.

(** X14. One tool invocation deletes the room at most once and issues at
    most one transfer request, whatever the world and the agent. *)
Theorem tool_invocation_at_most_one_teardown :
  forall (w : world) (a : outbound_caller) (t : tool),
    (count_deletes (snd (invoke w a t [])) <= 1)%nat /\
    (length (filter is_transfer (snd (invoke w a t []))) <= 1)%nat.
Proof.
  intros w a t.
  destruct t; cbn -[count_deletes];
    unfold transfer_call, end_call, look_up_availability, confirm_appointment,
      detected_answering_machine, bind, lift, ret, raise, emit, try_except,
      participant_identity, hangup;
    (destruct (py_getitem (dial_info a) "transfer_to") as [v|];
     [destruct (truthy v)|]); destruct (participant_of a);
    destruct (current_speech w), (transfer_fails w), (delete_fails w);
    unfold count_deletes; cbn; lia.
Qed.
